(** * A shallow embedding of the calculator component

    The component [src/components/Calculator.tsx] keeps four pieces of React
    state ([display], [previousValue], [operation], [waitingForNewValue]) and
    five handlers that replace them.  Every handler reads the values of the
    current render and writes constants computed from them, so a handler is
    a function from the state of one render to the state of the next.

    The handlers use three things of the JavaScript runtime: the [number]
    type with its arithmetic, [parseFloat] and [String(number)], and
    [String.prototype.slice].  They are modelled first, after ECMA-262:
    numbers are IEEE 754 binary64 values, taken from the Standard Library's
    [SpecFloat] (one NaN, signed zeros and infinities, round to nearest
    even); a string is its sequence of code units, each below 256, which is
    all a display ever holds. *)

From Stdlib Require Import ZArith List Bool Lia.
From Stdlib Require Import Ascii String.
From Stdlib Require Import SpecFloat.
From Stdlib Require Import DecimalString DecimalPos.
Import ListNotations.

Local Open Scope string_scope.
Local Open Scope Z_scope.

(** ** JavaScript numbers *)

Module JSNumber.

Definition number : Type := spec_float.

Definition prec : Z := 53.
Definition emax : Z := 1024.

Definition NaN : number := S754_nan.
Definition zero : number := S754_zero false.

(** The operators [+], [-], [*] and [/] on two numbers. *)
Definition add (x y : number) : number := SFadd prec emax x y.
Definition sub (x y : number) : number := SFsub prec emax x y.
Definition mul (x y : number) : number := SFmul prec emax x y.
Definition div (x y : number) : number := SFdiv prec emax x y.

(** [x === y] on two numbers: NaN differs from everything, [+0 === -0]. *)
Definition strict_eq (x y : number) : bool := SFeqb x y.

(** [ToBoolean] on a number: [+0], [-0] and [NaN] are falsy. *)
Definition to_boolean (x : number) : bool :=
  match x with
  | S754_zero _ | S754_nan => false
  | _ => true
  end.

(** [x || y] with a number on the left. *)
Definition or_else (x y : number) : number :=
  if to_boolean x then x else y.

(** The number nearest to [m * 10 ^ e10] (ties to even), signed by [neg];
    [m] is a natural number.  A negative power of ten is divided out with
    the quotient and the location of the remainder, then rounded once. *)
Definition of_decimal (neg : bool) (m e10 : Z) : number :=
  if m <=? 0 then S754_zero neg
  else if 0 <=? e10 then
    match m * 10 ^ e10 with
    | Zpos p => binary_round prec emax neg p 0
    | _ => S754_zero neg
    end
  else
    let '(q, e2, loc) := SFdiv_core_binary prec emax m 0 (10 ^ (- e10)) 0 in
    binary_round_aux prec emax neg q e2 loc.

(** *** [parseFloat] *)

Definition code (c : ascii) : Z := Z.of_nat (nat_of_ascii c).

Definition is_digit (c : ascii) : bool := (48 <=? code c) && (code c <=? 57).

(** Tab, line feed, vertical tab, form feed, carriage return, space and
    no-break space: the white space and line terminators below 256. *)
Definition is_white (c : ascii) : bool :=
  ((9 <=? code c) && (code c <=? 13)) || (code c =? 32) || (code c =? 160).

Fixpoint skip_white (s : string) : string :=
  match s with
  | String c s' => if is_white c then skip_white s' else s
  | EmptyString => s
  end.

(** The longest run of decimal digits at the head of [s], folded into
    [acc]: the value, how many digits were read, and what follows. *)
Fixpoint scan_digits (s : string) (acc count : Z) : Z * Z * string :=
  match s with
  | String c s' =>
      if is_digit c then scan_digits s' (10 * acc + (code c - 48)) (count + 1)
      else (acc, count, s)
  | EmptyString => (acc, count, s)
  end.

Definition split_sign (s : string) : bool * string :=
  match s with
  | String "+" s' => (false, s')
  | String "-" s' => (true, s')
  | _ => (false, s)
  end.

(** The value of an [ExponentPart] at the head of [s]; [0] when there is
    none, since the longest prefix that is a literal then stops before it. *)
Definition exponent_part (s : string) : Z :=
  match s with
  | String c s1 =>
      if (c =? "e")%char || (c =? "E")%char then
        let '(neg, s2) := split_sign s1 in
        let '(v, n, _) := scan_digits s2 0 0 in
        if n =? 0 then 0 else if neg then - v else v
      else 0
  | EmptyString => 0
  end.

(** [parseFloat(input)]: skip white space, then read the longest prefix
    that is a [StrDecimalLiteral]; [NaN] when there is none. *)
Definition parseFloat (input : string) : number :=
  let '(neg, s1) := split_sign (skip_white input) in
  if prefix "Infinity" s1 then S754_infinity neg
  else
    let '(ip, n1, s2) := scan_digits s1 0 0 in
    let '(m, n2, s3) :=
      match s2 with
      | String "." t => scan_digits t ip 0
      | _ => (ip, 0, s2)
      end in
    if (n1 =? 0) && (n2 =? 0) then NaN
    else of_decimal neg m (exponent_part s3 - n2).

(** *** [Number::toString] in radix 10 *)

(** The decimal digits of a positive integer. *)
Definition digits (s : Z) : string :=
  NilEmpty.string_of_uint (Pos.to_uint (Z.to_pos s)).

Definition digit_count (s : Z) : Z := Z.of_nat (String.length (digits s)).

Fixpoint zeros (n : nat) : string :=
  match n with
  | O => ""
  | S n' => String "0" (zeros n')
  end.

(** For [0 < num / den < 1], the least [j >= 1] with
    [1 <= num / den * 10 ^ j]. *)
Fixpoint first_digit_place (fuel : nat) (num den j : Z) : Z :=
  match fuel with
  | O => j
  | S fuel' =>
      if den <=? num * 10 then j
      else first_digit_place fuel' (num * 10) den (j + 1)
  end.

(** The [n] with [10 ^ (n - 1) <= num / den < 10 ^ n]. *)
Definition magnitude10 (num den : Z) : Z :=
  if den <=? num then digit_count (num / den)
  else 1 - first_digit_place (S (Z.to_nat (Z.log2 den))) num den 1.

(** [num / den / 10 ^ sc] as a quotient, a remainder and its divisor. *)
Definition scaled (num den sc : Z) : Z * Z * Z :=
  let d := if 0 <=? sc then den * 10 ^ sc else den in
  let n := if 0 <=? sc then num else num * 10 ^ (- sc) in
  (n / d, n mod d, d).

(** The candidates with [k] digits for the positive number [x = num / den]:
    the two integers around [x / 10 ^ (n - k)].  Of those that read back as
    [x] the nearer is taken, the even one when both are as near. *)
Definition candidate (x : number) (num den n k : Z) : option (Z * Z) :=
  let sc := n - k in
  let '(lo, r, d) := scaled num den sc in
  let hi := lo + 1 in
  let ok_lo := strict_eq (of_decimal false lo sc) x in
  let ok_hi := strict_eq (of_decimal false hi sc) x in
  let pick_hi :=
    match 2 * r ?= d with
    | Lt => false
    | Gt => true
    | Eq => Z.odd lo
    end in
  let chosen :=
    if ok_lo && ok_hi then Some (if pick_hi then hi else lo)
    else if ok_lo then Some lo
    else if ok_hi then Some hi
    else None in
  match chosen with
  | Some s => Some (if s =? 10 ^ k then (1, sc + k + 1) else (s, n))
  | None => None
  end.

(** The least [k] that has a candidate, with its [s] and [n]. *)
Fixpoint shortest (fuel : nat) (x : number) (num den n k : Z) : Z * Z :=
  match fuel with
  | O => (fst (fst (scaled num den (n - k))), n)
  | S fuel' =>
      match candidate x num den n k with
      | Some sn => sn
      | None => shortest fuel' x num den n (k + 1)
      end
  end.

Definition sign_text (e : Z) : string := if e <? 0 then "-" else "+".

(** The text of the digits [s] with the decimal point after the [n]th. *)
Definition layout (s n : Z) : string :=
  let ds := digits s in
  let k := Z.of_nat (String.length ds) in
  if (k <=? n) && (n <=? 21) then
    ds ++ zeros (Z.to_nat (n - k))
  else if (0 <? n) && (n <=? 21) then
    substring 0 (Z.to_nat n) ds ++ "." ++
    substring (Z.to_nat n) (Z.to_nat (k - n)) ds
  else if (-6 <? n) && (n <=? 0) then
    "0." ++ zeros (Z.to_nat (- n)) ++ ds
  else if k =? 1 then
    ds ++ "e" ++ sign_text (n - 1) ++ digits (Z.abs (n - 1))
  else
    substring 0 1 ds ++ "." ++ substring 1 (Z.to_nat (k - 1)) ds ++
    "e" ++ sign_text (n - 1) ++ digits (Z.abs (n - 1)).

Definition finite_to_string (m : positive) (e : Z) : string :=
  let num := if 0 <=? e then Zpos m * 2 ^ e else Zpos m in
  let den := if 0 <=? e then 1 else 2 ^ (- e) in
  let n := magnitude10 num den in
  let '(s, n') := shortest 17 (S754_finite false m e) num den n 1 in
  layout s n'.

(** [String(x)] for a number [x]. *)
Definition to_string (x : number) : string :=
  match x with
  | S754_nan => "NaN"
  | S754_zero _ => "0"
  | S754_infinity false => "Infinity"
  | S754_infinity true => "-Infinity"
  | S754_finite false m e => finite_to_string m e
  | S754_finite true m e => "-" ++ finite_to_string m e
  end.

End JSNumber.

(** ** JavaScript strings *)

Module JSString.

(** [s.slice(start, end)]: a negative index counts from the end of the
    string, and both indices are clamped to [0 .. s.length]. *)
Definition slice (s : string) (start end_ : Z) : string :=
  let len := Z.of_nat (String.length s) in
  let from := if start <? 0 then Z.max (len + start) 0 else Z.min start len in
  let to := if end_ <? 0 then Z.max (len + end_) 0 else Z.min end_ len in
  substring (Z.to_nat from) (Z.to_nat (Z.max (to - from) 0)) s.

(** [ToBoolean] on a string: only the empty string is falsy. *)
Definition to_boolean (s : string) : bool :=
  match s with
  | EmptyString => false
  | String _ _ => true
  end.

End JSString.

(** ** The component *)

Module Calculator.

Import JSNumber.

(** The four [useState] cells that the handlers read and write;
    [null] is [None]. *)
Record CalculatorState : Type := mkState {
  display : string;
  previousValue : option number;
  operation : option string;
  waitingForNewValue : bool
}.

(** The initial values given to [useState]. *)
Definition initialState : CalculatorState :=
  {| display := "0";
     previousValue := None;
     operation := None;
     waitingForNewValue := false |}.

(** [calculate] returns [number | string]. *)
Inductive value : Type :=
| Num (x : number)
| Str (s : string).

(** [String(v)]. *)
Definition String_ (v : value) : string :=
  match v with
  | Num x => to_string x
  | Str s => s
  end.

(** [v === 'Error']. *)
Definition is_Error (v : value) : bool :=
  match v with
  | Str s => (s =? "Error")%string
  | Num _ => false
  end.

Definition calculate (firstValue secondValue : number) (operation : string)
  : value :=
  if (operation =? "+")%string then Num (add firstValue secondValue)
  else if (operation =? "-")%string then Num (sub firstValue secondValue)
  else if (operation =? "*")%string then Num (mul firstValue secondValue)
  else if (operation =? "/")%string then
    if strict_eq secondValue zero then Str "Error"
    else Num (div firstValue secondValue)
  else Num secondValue.

(** What both handlers set when [calculate] returns ['Error']. *)
Definition errorState : CalculatorState :=
  {| display := "Error";
     previousValue := None;
     operation := None;
     waitingForNewValue := true |}.

Definition inputNumber (num : string) (st : CalculatorState)
  : CalculatorState :=
  if waitingForNewValue st then
    {| display := num;
       previousValue := previousValue st;
       operation := operation st;
       waitingForNewValue := false |}
  else
    {| display := if (display st =? "0")%string then num
                  else display st ++ num;
       previousValue := previousValue st;
       operation := operation st;
       waitingForNewValue := waitingForNewValue st |}.

Definition inputOperation (nextOperation : string) (st : CalculatorState)
  : CalculatorState :=
  let inputValue := parseFloat (display st) in
  match previousValue st with
  | None =>
      {| display := display st;
         previousValue := Some inputValue;
         operation := Some nextOperation;
         waitingForNewValue := true |}
  | Some previous =>
      match operation st with
      | Some op =>
          if JSString.to_boolean op then
            let currentValue := or_else previous zero in
            let newValue := calculate currentValue inputValue op in
            if is_Error newValue then errorState
            else
              {| display := String_ newValue;
                 previousValue :=
                   match newValue with
                   | Num x => Some x
                   | Str _ => None
                   end;
                 operation := Some nextOperation;
                 waitingForNewValue := true |}
          else
            {| display := display st;
               previousValue := previousValue st;
               operation := Some nextOperation;
               waitingForNewValue := true |}
      | None =>
          {| display := display st;
             previousValue := previousValue st;
             operation := Some nextOperation;
             waitingForNewValue := true |}
      end
  end.

Definition performCalculation (st : CalculatorState) : CalculatorState :=
  let inputValue := parseFloat (display st) in
  match previousValue st, operation st with
  | Some previous, Some op =>
      if JSString.to_boolean op then
        let newValue := calculate previous inputValue op in
        if is_Error newValue then errorState
        else
          {| display := String_ newValue;
             previousValue := None;
             operation := None;
             waitingForNewValue := true |}
      else st
  | _, _ => st
  end.

Definition clearAll (st : CalculatorState) : CalculatorState :=
  {| display := "0";
     previousValue := None;
     operation := None;
     waitingForNewValue := false |}.

Definition backspace (st : CalculatorState) : CalculatorState :=
  {| display :=
       if (1 <? String.length (display st))%nat
       then JSString.slice (display st) 0 (-1)
       else "0";
     previousValue := previousValue st;
     operation := operation st;
     waitingForNewValue := waitingForNewValue st |}.

(** *** The actions the user interface can fire

    The buttons of the grid, and the keys that the [keydown] listener
    forwards, call the handlers with these arguments only. *)

Inductive DigitKey : Type :=
| K0 | K1 | K2 | K3 | K4 | K5 | K6 | K7 | K8 | K9 | KDot.

Inductive OperatorKey : Type :=
| KAdd | KSubtract | KMultiply | KDivide.

Definition digit_text (d : DigitKey) : string :=
  match d with
  | K0 => "0" | K1 => "1" | K2 => "2" | K3 => "3" | K4 => "4"
  | K5 => "5" | K6 => "6" | K7 => "7" | K8 => "8" | K9 => "9"
  | KDot => "."
  end.

Definition operator_text (o : OperatorKey) : string :=
  match o with
  | KAdd => "+"
  | KSubtract => "-"
  | KMultiply => "*"
  | KDivide => "/"
  end.

Inductive Action : Type :=
| Digit (d : DigitKey)
| Operator (o : OperatorKey)
| Equals
| Clear
| Backspace.

Definition step (st : CalculatorState) (a : Action) : CalculatorState :=
  match a with
  | Digit d => inputNumber (digit_text d) st
  | Operator o => inputOperation (operator_text o) st
  | Equals => performCalculation st
  | Clear => clearAll st
  | Backspace => backspace st
  end.

Definition run (acts : list Action) (st : CalculatorState)
  : CalculatorState :=
  fold_left step acts st.

(** The states some sequence of actions leads to from the initial one. *)
Inductive reachable : CalculatorState -> Prop :=
| reachable_initial : reachable initialState
| reachable_step st a : reachable st -> reachable (step st a).

End Calculator.

Import JSNumber Calculator.

(** ** Notions used in the statements *)

(** Whether a text starts with a decimal digit. *)
Definition head_digit (s : string) : bool :=
  match s with
  | String c _ => is_digit c
  | EmptyString => false
  end.

(** A text with its last character removed. *)
Fixpoint drop_last (s : string) : string :=
  match s with
  | EmptyString => ""
  | String c EmptyString => ""
  | String c s' => String c (drop_last s')
  end.

(** Whether a text starts with the letter [E]. *)
Definition starts_with_E (s : string) : bool :=
  match s with
  | String c _ => (c =? "E")%char
  | EmptyString => false
  end.

(** Whether every character of a text passes the test [P]. *)
Fixpoint all_chars (P : ascii -> bool) (s : string) : bool :=
  match s with
  | EmptyString => true
  | String c s' => P c && all_chars P s'
  end.

(** Whether [c] is one of the characters of [s]. *)
Fixpoint char_in (c : ascii) (s : string) : bool :=
  match s with
  | EmptyString => false
  | String c' s' => (c =? c')%char || char_in c s'
  end.

(** A decimal digit, a character of the notation of numbers, or a letter
    of [Error], [NaN] or [Infinity]. *)
Definition display_char (c : ascii) : bool :=
  is_digit c || char_in c ".-+e" || char_in c "ErroNaInfity".

(** A text made of such characters only. *)
Definition display_text (s : string) : bool := all_chars display_char s.


(** What every reachable state satisfies: the display is a non-empty text
    of display characters; a display that starts with [E] waits for a new
    value; an operand is pending exactly when an operator is, and that
    operator is one of the four keys. *)
Record invariant (st : CalculatorState) : Prop := {
  inv_display : display st <> "";
  inv_text : display_text (display st) = true;
  inv_waiting :
    starts_with_E (display st) = true -> waitingForNewValue st = true;
  inv_pending : previousValue st = None <-> operation st = None;
  inv_operator :
    forall op, operation st = Some op -> exists o, op = operator_text o
}.

(** The characters of a sequence of digit keys, one after the other. *)
Fixpoint concat_text (ds : list DigitKey) : string :=
  match ds with
  | [] => ""
  | d :: ds' => digit_text d ++ concat_text ds'
  end.

(** The keys that remain once the [0] keys at the front are left out. *)
Fixpoint drop_zeros (ds : list DigitKey) : list DigitKey :=
  match ds with
  | K0 :: ds' => drop_zeros ds'
  | _ => ds
  end.

(** What the display shows for a sequence of digit keys. *)
Definition entered_text (ds : list DigitKey) : string :=
  match drop_zeros ds with
  | [] => "0"
  | rest => concat_text rest
  end.

(** The state after the keys [6], [/], [0]. *)
Definition sixDividedByZero : CalculatorState :=
  run [Digit K6; Operator KDivide; Digit K0] initialState.

(** The state after the keys [2], [+], [3]. *)
Definition twoPlusThree : CalculatorState :=
  run [Digit K2; Operator KAdd; Digit K3] initialState.

(** The state after the keys [6], [/], [0], [=]. *)
Definition afterDivisionByZero : CalculatorState :=
  run [Digit K6; Operator KDivide; Digit K0; Equals] initialState.

(** The same state after one more operator key. *)
Definition operatorOnError : CalculatorState :=
  run [Digit K6; Operator KDivide; Digit K0; Equals; Operator KAdd]
      initialState.




(** The keys of a chain of operations: each operator key, followed by the
    digit keys of its second operand. *)
Fixpoint chain_keys (chain : list (OperatorKey * list DigitKey))
  : list Action :=
  match chain with
  | [] => []
  | (o, ds) :: rest => (Operator o :: map Digit ds ++ chain_keys rest)%list
  end.

(** The value of a chain taken from left to right, whatever its operators
    are: [acc] is the operand pending with the operator [o], and [ds] the
    digits typed after it.  Every operation but the last is made by the
    next operator key, which reads a pending [NaN] or zero as [0]; the last
    one is made by equals.  A division by zero ends the chain. *)
Fixpoint chain_value (acc : number) (o : OperatorKey) (ds : list DigitKey)
  (rest : list (OperatorKey * list DigitKey)) : value :=
  match rest with
  | [] => calculate acc (parseFloat (entered_text ds)) (operator_text o)
  | (o', ds') :: rest' =>
      match calculate (or_else acc zero) (parseFloat (entered_text ds))
                      (operator_text o) with
      | Num r => chain_value r o' ds' rest'
      | Str s => Str s
      end
  end.


(** ** The keyboard listener *)

Module Keyboard.

(** [l.includes(key)] on an array of strings. *)
Definition includes (l : list string) (key : string) : bool :=
  existsb (String.eqb key) l.

(** [handleKeyPress], on the [key] of the event: the next state, and
    whether [preventDefault] was called.  [>=] and [<=] on two strings
    compare their code units from the left. *)
Definition handleKeyPress (key : string) (st : CalculatorState)
  : CalculatorState * bool :=
  if String.leb "0" key && String.leb key "9" then
    (inputNumber key st, false)
  else if includes ["+"; "-"; "*"; "/"] key then
    (inputOperation key st, false)
  else if (key =? "Enter")%string || (key =? "=")%string then
    (performCalculation st, true)
  else if (key =? "Backspace")%string then
    (backspace st, true)
  else if (key =? "Escape")%string then
    (clearAll st, false)
  else (st, false).

End Keyboard.

(** ** The theme *)

Module Theme.

(** The [isDarkMode] cell, and the tokens of
    [document.documentElement.classList], an ordered set. *)
Record ThemeState : Type := mkTheme {
  isDarkMode : bool;
  classList : list string
}.

(** [classList.toggle(token, force)]: with [force] the token is added at
    the end unless it is there, without it the token is removed. *)
Definition classList_toggle (token : string) (force : bool)
  (l : list string) : list string :=
  if force then
    if existsb (String.eqb token) l then l else (l ++ [token])%list
  else filter (fun t => negb (t =? token)%string) l.

Definition toggleDarkMode (th : ThemeState) : ThemeState :=
  let newMode := negb (isDarkMode th) in
  {| isDarkMode := newMode;
     classList := classList_toggle "dark" newMode (classList th) |}.

(** The effect run at mount; [prefersDark] is what
    [window.matchMedia('(prefers-color-scheme: dark)').matches] gives. *)
Definition initializeDarkMode (prefersDark : bool) (th : ThemeState)
  : ThemeState :=
  {| isDarkMode := prefersDark;
     classList := classList_toggle "dark" prefersDark (classList th) |}.

(** The class [dark] is on the document exactly in dark mode. *)
Definition in_sync (th : ThemeState) : Prop :=
  In "dark" (classList th) <-> isDarkMode th = true.

End Theme.

(** ** What [String(x)] can look like *)

Section NumberText.

Lemma head_digit_append (a b : string) :
  head_digit a = true -> head_digit (a ++ b) = true.
Proof. destruct a as [|c a]; simpl; [discriminate | trivial]. Qed.

Lemma head_digit_substring (n : nat) (s : string) :
  head_digit (substring 0 (S n) s) = head_digit s.
Proof. destruct s; reflexivity. Qed.

Lemma digits_head (s : Z) : head_digit (digits s) = true.
Proof.
  unfold digits.
  pose proof (Unsigned.to_uint_nonnil (Z.to_pos s)) as Hnil.
  destruct (Pos.to_uint (Z.to_pos s)); try reflexivity.
  now elim Hnil.
Qed.

Lemma layout_head (s n : Z) : head_digit (layout s n) = true.
Proof.
  unfold layout.
  pose proof (digits_head s) as Hd.
  set (ds := digits s) in *.
  set (k := Z.of_nat (String.length ds)).
  destruct ((k <=? n) && (n <=? 21)) eqn:E1.
  { now apply head_digit_append. }
  destruct ((0 <? n) && (n <=? 21)) eqn:E2.
  { apply andb_prop in E2 as [Hn _]. apply Z.ltb_lt in Hn.
    destruct (Z.to_nat n) as [|n'] eqn:En; [lia|].
    apply head_digit_append. now rewrite head_digit_substring. }
  destruct ((-6 <? n) && (n <=? 0)) eqn:E3; [reflexivity|].
  destruct (k =? 1).
  { now apply head_digit_append. }
  apply head_digit_append. now rewrite head_digit_substring.
Qed.

Lemma finite_to_string_head (m : positive) (e : Z) :
  head_digit (finite_to_string m e) = true.
Proof.
  unfold finite_to_string.
  destruct (shortest _ _ _ _ _ _) as [s n'].
  apply layout_head.
Qed.

(** [String(x)] starts with a digit, a minus sign, [N] or [I]. *)
Lemma to_string_head (x : number) :
  exists c t, to_string x = String c t /\
              (is_digit c = true \/ c = "-" \/ c = "N" \/ c = "I")%char.
Proof.
  destruct x as [s|[|]| |[|] m e]; simpl; eauto 7.
  - pose proof (finite_to_string_head m e) as H.
    destruct (finite_to_string m e) as [|c t]; [discriminate|]. eauto.
Qed.

Lemma to_string_not_empty (x : number) : to_string x <> "".
Proof. destruct (to_string_head x) as (c & t & -> & _). discriminate. Qed.

Lemma to_string_not_E (x : number) (t : string) :
  to_string x <> String "E" t.
Proof.
  destruct (to_string_head x) as (c & t' & -> & H).
  intros Heq. injection Heq as Hc _. subst c.
  destruct H as [H|[H|[H|H]]]; vm_compute in H; discriminate.
Qed.

End NumberText.

(** ** Facts about strings and [slice] *)

Section StringFacts.

Lemma drop_last_snoc (s : string) :
  s <> "" -> exists c, s = drop_last s ++ String c "".
Proof.
  induction s as [|a s IH]; [congruence|]. intros _.
  destruct s as [|b s].
  - exists a. reflexivity.
  - destruct IH as [c Hc]; [discriminate|].
    exists c. change (drop_last (String a (String b s)))
      with (String a (drop_last (String b s))).
    change (String a (String b s) =
            String a (drop_last (String b s) ++ String c "")).
    now rewrite <- Hc.
Qed.

Lemma drop_last_length (s : string) :
  String.length (drop_last s) = pred (String.length s).
Proof.
  induction s as [|a s IH]; [reflexivity|].
  destruct s as [|b s]; [reflexivity|].
  change (drop_last (String a (String b s)))
    with (String a (drop_last (String b s))).
  simpl String.length in *. now rewrite IH.
Qed.

Lemma substring_drop_last (s : string) :
  substring 0 (pred (String.length s)) s = drop_last s.
Proof.
  induction s as [|a s IH]; [reflexivity|].
  destruct s as [|b s]; [reflexivity|].
  change (drop_last (String a (String b s)))
    with (String a (drop_last (String b s))).
  rewrite <- IH. reflexivity.
Qed.

(** [s.slice(0, -1)] is [s] without its last character. *)
Lemma slice_drop_last (s : string) :
  JSString.slice s 0 (-1) = drop_last s.
Proof.
  unfold JSString.slice.
  rewrite <- substring_drop_last.
  change (0 <? 0) with false. change (-1 <? 0) with true. cbv iota.
  f_equal; lia.
Qed.

Lemma starts_with_E_append (a b : string) :
  a <> "" -> starts_with_E (a ++ b) = starts_with_E a.
Proof. destruct a; [congruence | reflexivity]. Qed.

Lemma starts_with_E_drop_last (s : string) :
  (1 < String.length s)%nat ->
  starts_with_E (drop_last s) = starts_with_E s.
Proof.
  destruct s as [|a [|b s]]; simpl String.length; try lia. reflexivity.
Qed.

Lemma append_not_empty (a b : string) : b <> "" -> a ++ b <> "".
Proof. destruct a; simpl; [trivial | discriminate]. Qed.

End StringFacts.

(** ** Facts about [calculate] *)

Section CalculateFacts.

Variables a b : number.

Lemma calculate_other (op : string) :
  op <> "+" -> op <> "-" -> op <> "*" -> op <> "/" ->
  calculate a b op = Num b.
Proof.
  intros H1 H2 H3 H4. unfold calculate.
  apply String.eqb_neq in H1, H2, H3, H4.
  now rewrite H1, H2, H3, H4.
Qed.

(** [calculate] returns a number, or the text ['Error']. *)
Lemma calculate_result (op : string) :
  calculate a b op = Str "Error" \/ exists x, calculate a b op = Num x.
Proof.
  unfold calculate.
  repeat match goal with
         | |- context [if ?c then _ else _] => destruct c
         end; eauto.
Qed.

(** ['Error'] comes from a division by a zero only. *)
Lemma calculate_is_Error (op : string) :
  is_Error (calculate a b op) = true <->
  op = "/" /\ strict_eq b zero = true.
Proof.
  unfold calculate.
  destruct (String.eqb_spec op "+") as [->|_].
  { simpl. split; [discriminate | intros [H _]; discriminate]. }
  destruct (String.eqb_spec op "-") as [->|_].
  { simpl. split; [discriminate | intros [H _]; discriminate]. }
  destruct (String.eqb_spec op "*") as [->|_].
  { simpl. split; [discriminate | intros [H _]; discriminate]. }
  destruct (String.eqb_spec op "/") as [->|Hne].
  - destruct (strict_eq b zero); simpl; intuition discriminate.
  - simpl. split; [discriminate | intros [H _]; contradiction].
Qed.


End CalculateFacts.

(** Arithmetic with [NaN] on the right gives [NaN]. *)
Lemma calculate_NaN_right (x : number) (op : string) :
  calculate x NaN op = Num NaN.
Proof.
  unfold calculate, add, sub, mul, div, NaN.
  repeat match goal with
         | |- context [if ?c then _ else _] => destruct c eqn:?
         end; try (destruct x; reflexivity).
  discriminate.
Qed.

(** ** The characters a display is made of *)

Section DisplayText.

Lemma all_chars_append (P : ascii -> bool) (a b : string) :
  all_chars P (a ++ b) = all_chars P a && all_chars P b.
Proof.
  induction a as [|c a IH]; simpl; [reflexivity|].
  now rewrite IH, andb_assoc.
Qed.

Lemma all_chars_substring (P : ascii -> bool) (s : string) (n m : nat) :
  all_chars P s = true -> all_chars P (substring n m s) = true.
Proof.
  revert n m. induction s as [|c s IH]; intros n m H.
  - now destruct n, m.
  - simpl in H. apply andb_prop in H as [Hc Hs].
    destruct n as [|n]; [destruct m as [|m]|]; simpl; auto.
    now rewrite Hc, IH.
Qed.

Lemma all_chars_drop_last (P : ascii -> bool) (s : string) :
  all_chars P s = true -> all_chars P (drop_last s) = true.
Proof.
  intros H. rewrite <- substring_drop_last. now apply all_chars_substring.
Qed.

Lemma all_chars_weaken (P Q : ascii -> bool) (s : string) :
  (forall c, P c = true -> Q c = true) ->
  all_chars P s = true -> all_chars Q s = true.
Proof.
  intros HPQ. induction s as [|c s IH]; simpl; [trivial|].
  intros H. apply andb_prop in H as [Hc Hs].
  now rewrite (HPQ c Hc), IH.
Qed.

Lemma is_digit_display_char (c : ascii) :
  is_digit c = true -> display_char c = true.
Proof. unfold display_char. now intros ->. Qed.

Lemma uint_text_digits (d : Decimal.uint) :
  all_chars is_digit (NilEmpty.string_of_uint d) = true.
Proof. induction d; simpl; trivial. Qed.

Lemma digits_display_text (s : Z) : display_text (digits s) = true.
Proof.
  apply all_chars_weaken with (P := is_digit).
  - exact is_digit_display_char.
  - apply uint_text_digits.
Qed.

Lemma zeros_display_text (n : nat) : display_text (zeros n) = true.
Proof. induction n; simpl; trivial. Qed.

Lemma sign_text_display_text (e : Z) : display_text (sign_text e) = true.
Proof. unfold sign_text. now destruct (e <? 0). Qed.

Lemma layout_display_text (s n : Z) : display_text (layout s n) = true.
Proof.
  unfold layout, display_text.
  pose proof (digits_display_text s) as Hd. unfold display_text in Hd.
  set (ds := digits s) in *.
  repeat match goal with
         | |- context [if ?c then _ else _] => destruct c
         end;
    repeat rewrite all_chars_append;
    repeat (apply andb_true_intro; split);
    try reflexivity;
    try (apply all_chars_substring; exact Hd);
    try exact Hd;
    try apply zeros_display_text;
    try apply sign_text_display_text;
    try apply digits_display_text.
Qed.

Lemma to_string_display_text (x : number) : display_text (to_string x) = true.
Proof.
  destruct x as [s|[|]| |[|] m e]; try reflexivity;
    unfold to_string, finite_to_string;
    destruct (shortest _ _ _ _ _ _) as [s n'].
  - change (display_text (String "-" (layout s n')) = true).
    unfold display_text. simpl. apply layout_display_text.
  - apply layout_display_text.
Qed.

Lemma digit_text_display_text (d : DigitKey) :
  display_text (digit_text d) = true.
Proof. now destruct d. Qed.

End DisplayText.

(** ** An invariant of the reachable states *)

Section Invariant.

Lemma digit_text_shape (d : DigitKey) :
  exists c, digit_text d = String c "" /\ (c =? "E")%char = false.
Proof. destruct d; simpl; eauto. Qed.

Lemma operator_text_truthy (o : OperatorKey) :
  JSString.to_boolean (operator_text o) = true.
Proof. now destruct o. Qed.

Lemma invariant_initial : invariant initialState.
Proof.
  split; simpl; try discriminate; try tauto.
Qed.

Lemma invariant_errorState : invariant errorState.
Proof.
  split; simpl; try discriminate; try tauto.
Qed.

Lemma invariant_inputNumber (d : DigitKey) (st : CalculatorState) :
  invariant st -> invariant (inputNumber (digit_text d) st).
Proof.
  intros [Hd Ht Hw Hp Ho].
  destruct (digit_text_shape d) as (c & Hc & HE).
  pose proof (digit_text_display_text d) as Hdt.
  unfold inputNumber.
  destruct (waitingForNewValue st) eqn:W; split; simpl; auto.
  - rewrite Hc. discriminate.
  - rewrite Hc. simpl. rewrite HE. discriminate.
  - destruct (display st =? "0")%string.
    + rewrite Hc. discriminate.
    + apply append_not_empty. rewrite Hc. discriminate.
  - destruct (display st =? "0")%string; [assumption|].
    unfold display_text in *. now rewrite all_chars_append, Ht, Hdt.
  - destruct (String.eqb_spec (display st) "0") as [E0|_].
    + rewrite Hc. simpl. rewrite HE. discriminate.
    + rewrite starts_with_E_append by assumption. assumption.
Qed.

Lemma invariant_inputOperation (o : OperatorKey) (st : CalculatorState) :
  invariant st -> invariant (inputOperation (operator_text o) st).
Proof.
  intros [Hd Ht Hw Hp Ho].
  assert (Hnew : forall p : number,
             Some p = None <-> Some (operator_text o) = None)
    by (intros p; split; discriminate).
  assert (Hop : forall op, Some (operator_text o) = Some op ->
                           exists o', op = operator_text o')
    by (intros op [= <-]; eauto).
  unfold inputOperation.
  destruct (previousValue st) as [previous|] eqn:P.
  2: { split; simpl; auto. }
  destruct (operation st) as [op|] eqn:O.
  2: { split; simpl; auto. }
  destruct (JSString.to_boolean op).
  2: { split; simpl; auto. }
  destruct (calculate_result (or_else previous zero)
              (parseFloat (display st)) op) as [E|[x E]]; rewrite E; simpl.
  - exact invariant_errorState.
  - split; simpl; auto.
    + apply to_string_not_empty.
    + apply to_string_display_text.
Qed.

Lemma invariant_performCalculation (st : CalculatorState) :
  invariant st -> invariant (performCalculation st).
Proof.
  intros Hinv. unfold performCalculation.
  destruct (previousValue st) as [previous|]; [|assumption].
  destruct (operation st) as [op|]; [|assumption].
  destruct (JSString.to_boolean op); [|assumption].
  destruct (calculate_result previous (parseFloat (display st)) op)
    as [E|[x E]]; rewrite E; simpl.
  - exact invariant_errorState.
  - split; simpl; auto; try discriminate; try tauto.
    + apply to_string_not_empty.
    + apply to_string_display_text.
Qed.

Lemma invariant_clearAll (st : CalculatorState) : invariant (clearAll st).
Proof. exact invariant_initial. Qed.

Lemma invariant_backspace (st : CalculatorState) :
  invariant st -> invariant (backspace st).
Proof.
  intros [Hd Ht Hw Hp Ho]. unfold backspace.
  split; simpl; auto.
  - destruct (Nat.ltb_spec 1 (String.length (display st))) as [L|L].
    + rewrite slice_drop_last. intros E.
      pose proof (drop_last_length (display st)) as Hl.
      rewrite E in Hl. simpl in Hl. lia.
    + discriminate.
  - destruct (Nat.ltb_spec 1 (String.length (display st))) as [L|L].
    + rewrite slice_drop_last. now apply all_chars_drop_last.
    + reflexivity.
  - destruct (Nat.ltb_spec 1 (String.length (display st))) as [L|L].
    + rewrite slice_drop_last, starts_with_E_drop_last by assumption.
      assumption.
    + discriminate.
Qed.

Lemma invariant_step (st : CalculatorState) (a : Action) :
  invariant st -> invariant (step st a).
Proof.
  destruct a; simpl.
  - apply invariant_inputNumber.
  - apply invariant_inputOperation.
  - apply invariant_performCalculation.
  - intros _. apply invariant_clearAll.
  - apply invariant_backspace.
Qed.

Lemma reachable_invariant (st : CalculatorState) :
  reachable st -> invariant st.
Proof.
  induction 1 as [|st a _ IH].
  - exact invariant_initial.
  - now apply invariant_step.
Qed.

Lemma reachable_run (acts : list Action) (st : CalculatorState) :
  reachable st -> reachable (run acts st).
Proof.
  revert st. induction acts as [|a acts IH]; intros st H; simpl.
  - exact H.
  - apply IH. now constructor.
Qed.

(** While the display reads [Error] the next digit starts a number. *)
Lemma reachable_Error_waiting (st : CalculatorState) :
  reachable st -> display st = "Error" -> waitingForNewValue st = true.
Proof.
  intros H E. apply reachable_invariant in H as [_ _ Hw _ _].
  apply Hw. now rewrite E.
Qed.

(** An operand is pending exactly when one of the four operators is. *)
Lemma reachable_pending (st : CalculatorState) (p : number) :
  reachable st -> previousValue st = Some p ->
  exists o, operation st = Some (operator_text o).
Proof.
  intros H P. apply reachable_invariant in H as [_ _ _ Hp Ho].
  destruct (operation st) as [op|] eqn:O.
  - destruct (Ho op eq_refl) as [o ->]. eauto.
  - assert (previousValue st = None) by now apply Hp.
    congruence.
Qed.

End Invariant.

(** ** The arithmetic core *)

(** C9: for all numbers [a] and [b], [calculate] gives [a + b] for ['+'],
    [a - b] for ['-'], [a * b] for ['*']; for ['/'] it gives the text
    ['Error'] when [b === 0] and [a / b] otherwise; for any other operator
    text it gives [b]. *)
Theorem calculate_spec (a b : number) :
  calculate a b "+" = Num (add a b) /\
  calculate a b "-" = Num (sub a b) /\
  calculate a b "*" = Num (mul a b) /\
  (strict_eq b zero = true -> calculate a b "/" = Str "Error") /\
  (strict_eq b zero = false -> calculate a b "/" = Num (div a b)) /\
  (forall op, op <> "+" -> op <> "-" -> op <> "*" -> op <> "/" ->
              calculate a b op = Num b).
Proof.
  repeat split; try reflexivity.
  - intros H. unfold calculate. simpl. now rewrite H.
  - intros H. unfold calculate. simpl. now rewrite H.
  - apply calculate_other.
Qed.

Lemma calculate_spec_witness :
  calculate (parseFloat "6") (parseFloat "0") "/" = Str "Error" /\
  calculate (parseFloat "6") (parseFloat "3") "/" =
    Num (div (parseFloat "6") (parseFloat "3")) /\
  calculate (parseFloat "6") (parseFloat "3") "%" = Num (parseFloat "3").
Proof.
  split; [|split].
  - apply (calculate_spec (parseFloat "6") (parseFloat "0")). reflexivity.
  - apply (calculate_spec (parseFloat "6") (parseFloat "3")). reflexivity.
  - apply (calculate_spec (parseFloat "6") (parseFloat "3"));
      intros H; discriminate H.
Defined.

(** ** Division by zero *)

(** C1: whenever the operator or the equals handler calls [calculate] with
    ['/'] and a second value that is [=== 0], the next state shows [Error],
    has no pending operand or operator and waits for a new value; ['Error']
    is returned by [calculate] for a division by zero only; and the keys
    [6], [/], [0], [=] end with the display [Error].  The handlers are total
    functions to a state: nothing is raised towards the caller. *)
Theorem division_by_zero_shows_Error :
  (forall st a, previousValue st = Some a -> operation st = Some "/" ->
     strict_eq (parseFloat (display st)) zero = true ->
     (forall next, inputOperation next st =
        {| display := "Error"; previousValue := None; operation := None;
           waitingForNewValue := true |}) /\
     performCalculation st =
        {| display := "Error"; previousValue := None; operation := None;
           waitingForNewValue := true |}) /\
  (forall a b op, is_Error (calculate a b op) = true ->
     op = "/" /\ strict_eq b zero = true) /\
  display (run [Digit K6; Operator KDivide; Digit K0; Equals] initialState)
    = "Error".
Proof.
  split; [|split].
  - intros st a P O Z. split.
    + intros next. unfold inputOperation. rewrite P, O. simpl.
      unfold calculate. simpl. now rewrite Z.
    + unfold performCalculation. rewrite P, O. simpl.
      unfold calculate. simpl. now rewrite Z.
  - intros a b op. apply calculate_is_Error.
  - reflexivity.
Qed.

Lemma division_by_zero_shows_Error_witness :
  performCalculation sixDividedByZero =
    {| display := "Error"; previousValue := None; operation := None;
       waitingForNewValue := true |}.
Proof.
  destruct division_by_zero_shows_Error as [H _].
  apply (H sixDividedByZero (parseFloat "6")); reflexivity.
Defined.

(** ** Clear *)

(** C6: the clear handler, applied to any state, gives the initial state:
    display [0], no pending operand, no pending operator, and no wait for a
    new value. *)
Theorem clearAll_resets (st : CalculatorState) :
  step st Clear = initialState /\
  clearAll st =
    {| display := "0"; previousValue := None; operation := None;
       waitingForNewValue := false |}.
Proof. split; reflexivity. Qed.

(** ** Backspace *)

(** C7: for every state, backspace removes the last character of a display
    of more than one character, and sets a display of exactly one character
    to [0]; the pending operand, the pending operator and the flag stay as
    they were. *)
Theorem backspace_spec (st : CalculatorState) :
  ((1 < String.length (display st))%nat ->
     display (backspace st) = drop_last (display st) /\
     exists c, display st = display (backspace st) ++ String c "") /\
  (String.length (display st) = 1%nat -> display (backspace st) = "0") /\
  previousValue (backspace st) = previousValue st /\
  operation (backspace st) = operation st /\
  waitingForNewValue (backspace st) = waitingForNewValue st.
Proof.
  repeat split.
  - unfold backspace. simpl.
    apply Nat.ltb_lt in H. rewrite H. apply slice_drop_last.
  - unfold backspace. simpl.
    pose proof H as L. apply Nat.ltb_lt in L. rewrite L, slice_drop_last.
    apply drop_last_snoc. intros E. rewrite E in H. simpl in H. lia.
  - intros H. unfold backspace. simpl. now rewrite H.
Qed.

Lemma backspace_spec_witness :
  display (backspace (mkState "12.5" None None false)) = "12." /\
  display (backspace (mkState "7" None None false)) = "0".
Proof.
  split.
  - destruct (backspace_spec (mkState "12.5" None None false)) as [H _].
    destruct H as [H _]; [simpl; lia | exact H].
  - destruct (backspace_spec (mkState "7" None None false)) as [_ [H _]].
    apply H. reflexivity.
Defined.

(** ** Equals *)

(** C5: when a pending operand and a pending operator are there (the
    operator being a non-empty text, as every operator key is) and
    [calculate] does not return ['Error'], equals shows the text of
    [calculate] on the pending operand, the parsed display and the pending
    operator, clears both and waits for a new value; when the pending
    operand or the pending operator is missing, equals changes nothing, as
    after the keys [5], [=], which leave the display [5]. *)
Theorem performCalculation_spec (st : CalculatorState) :
  (forall a op,
     previousValue st = Some a -> operation st = Some op -> op <> "" ->
     is_Error (calculate a (parseFloat (display st)) op) = false ->
     performCalculation st =
       {| display := String_ (calculate a (parseFloat (display st)) op);
          previousValue := None;
          operation := None;
          waitingForNewValue := true |}) /\
  (previousValue st = None \/ operation st = None ->
     performCalculation st = st) /\
  display (run [Digit K5; Equals] initialState) = "5".
Proof.
  split; [|split].
  - intros a op P O Hop E. unfold performCalculation. rewrite P, O.
    destruct op as [|c op]; [congruence|]. simpl JSString.to_boolean.
    cbv iota. cbv zeta. now rewrite E.
  - intros [P|O]; unfold performCalculation.
    + now rewrite P.
    + rewrite O. now destruct (previousValue st).
  - reflexivity.
Qed.

Lemma performCalculation_spec_witness :
  performCalculation twoPlusThree =
    {| display := "5"; previousValue := None; operation := None;
       waitingForNewValue := true |} /\
  performCalculation initialState = initialState.
Proof.
  split.
  - destruct (performCalculation_spec twoPlusThree) as [H _].
    apply (H (parseFloat "2") "+"%string);
      [reflexivity | reflexivity | discriminate | reflexivity].
  - destruct (performCalculation_spec initialState) as [_ [H _]].
    apply H. left. reflexivity.
Defined.

(** ** Entering digits *)

Lemma append_assoc (a b c : string) : (a ++ b) ++ c = a ++ (b ++ c).
Proof. induction a as [|x a IH]; simpl; [reflexivity | now rewrite IH]. Qed.

Lemma length_append (a b : string) :
  String.length (a ++ b) = (String.length a + String.length b)%nat.
Proof. induction a as [|x a IH]; simpl; [reflexivity | now rewrite IH]. Qed.

Lemma digit_text_length (d : DigitKey) : String.length (digit_text d) = 1%nat.
Proof. now destruct d. Qed.

(** Digits typed after a display that is not the lone [0] are appended. *)
Lemma digits_appended (ds : list DigitKey) (st : CalculatorState) :
  waitingForNewValue st = false ->
  display st <> "" -> display st <> "0" ->
  display (run (map Digit ds) st) = display st ++ concat_text ds.
Proof.
  revert st. induction ds as [|d ds IH]; intros st W Hne H0; simpl.
  - clear. induction (display st) as [|c s IH]; simpl; congruence.
  - rewrite IH.
    + unfold inputNumber. rewrite W. simpl.
      apply String.eqb_neq in H0. rewrite H0. apply append_assoc.
    + unfold inputNumber. now rewrite W.
    + unfold inputNumber. rewrite W. simpl.
      destruct (display st =? "0")%string.
      * destruct d; discriminate.
      * apply append_not_empty. destruct d; discriminate.
    + unfold inputNumber. rewrite W. simpl.
      apply String.eqb_neq in H0. rewrite H0.
      intros E. apply (f_equal String.length) in E.
      rewrite length_append, digit_text_length in E.
      destruct (display st); [congruence | simpl in E; lia].
Qed.

(** C8, as amended: after any sequence of digit keys from the initial state
    the display is the concatenation of the keys from the first one that is
    not [0] onwards, and [0] when every key is [0]; so it is the
    concatenation of all the keys when the first is not [0]. *)
Theorem digits_entered (ds : list DigitKey) :
  display (run (map Digit ds) initialState) = entered_text ds /\
  (forall d ds', ds = d :: ds' -> d <> K0 ->
     display (run (map Digit ds) initialState) = concat_text ds).
Proof.
  assert (Hgen : display (run (map Digit ds) initialState) = entered_text ds).
  { induction ds as [|d ds IH]; [reflexivity|].
    destruct d;
      try (simpl; rewrite digits_appended;
           [reflexivity | reflexivity | discriminate | discriminate]).
    exact IH. }
  split; [exact Hgen|].
  intros d ds' -> Hd. rewrite Hgen. unfold entered_text.
  destruct d; try reflexivity. congruence.
Qed.

Lemma digits_entered_witness :
  display (run (map Digit [K1; K0; KDot; K5]) initialState) = "10.5".
Proof.
  destruct (digits_entered [K1; K0; KDot; K5]) as [_ H].
  apply (H K1 [K0; KDot; K5]); [reflexivity | discriminate].
Defined.

(** C8, as stated, fails for a sequence that starts with [0]: the keys [0],
    [5] show [5], and their concatenation is [05]. *)
Lemma leading_zero_not_kept :
  display (run (map Digit [K0; K5]) initialState) = "5" /\
  concat_text [K0; K5] = "05" /\
  display (run (map Digit [K0; K5]) initialState) <> concat_text [K0; K5].
Proof. repeat split. vm_compute. discriminate. Qed.

(** ** The display [Error] *)

Lemma parseFloat_Error : parseFloat "Error" = NaN.
Proof. reflexivity. Qed.

(** C3, as stated, fails: backspace turns the display [Error] into [Erro],
    and with an operand pending both equals and an operator key turn it
    into [NaN]. *)
Lemma Error_left_by_other_actions :
  (reachable afterDivisionByZero /\
   display afterDivisionByZero = "Error" /\
   display (step afterDivisionByZero Backspace) = "Erro" /\
   display (step afterDivisionByZero Backspace) <> "Error") /\
  (reachable operatorOnError /\
   display operatorOnError = "Error" /\
   display (step operatorOnError Equals) = "NaN" /\
   display (step operatorOnError Equals) <> "Error" /\
   display (step operatorOnError (Operator KMultiply)) = "NaN" /\
   display (step operatorOnError (Operator KMultiply)) <> "Error").
Proof.
  split.
  - split; [|split; [|split]].
    + apply reachable_run. constructor.
    + reflexivity.
    + reflexivity.
    + vm_compute. discriminate.
  - split; [|split; [|split; [|split; [|split]]]].
    + apply reachable_run. constructor.
    + reflexivity.
    + reflexivity.
    + vm_compute. discriminate.
    + reflexivity.
    + vm_compute. discriminate.
Qed.

(** C3, as amended: in every reachable state whose display is [Error], a
    digit key shows that digit and clear shows [0], so both leave [Error];
    backspace leaves it too, for [Erro]; an operator key and equals keep
    [Error] when no operand is pending and show [NaN] when one is. *)
Theorem Error_exits (st : CalculatorState) :
  reachable st -> display st = "Error" ->
  (forall d, display (step st (Digit d)) = digit_text d /\
             display (step st (Digit d)) <> "Error") /\
  (display (step st Clear) = "0") /\
  (display (step st Backspace) = "Erro") /\
  (previousValue st = None ->
     forall o, display (step st (Operator o)) = "Error" /\
               display (step st Equals) = "Error") /\
  (previousValue st <> None ->
     forall o, display (step st (Operator o)) = "NaN" /\
               display (step st Equals) = "NaN").
Proof.
  intros R E.
  pose proof (reachable_Error_waiting st R E) as W.
  split; [|split; [|split; [|split]]].
  - intros d. simpl. unfold inputNumber. rewrite W. simpl.
    split; [reflexivity | destruct d; discriminate].
  - reflexivity.
  - simpl. unfold backspace. simpl. now rewrite E.
  - intros P o. simpl. unfold inputOperation, performCalculation.
    rewrite P. simpl. auto.
  - intros P o.
    destruct (previousValue st) as [p|] eqn:Hp; [|congruence].
    destruct (reachable_pending st p R Hp) as [o' O].
    pose proof (operator_text_truthy o') as T.
    simpl. unfold inputOperation, performCalculation.
    rewrite Hp, O, T, E, parseFloat_Error, !calculate_NaN_right.
    split; reflexivity.
Qed.

Lemma Error_exits_witness :
  display (step afterDivisionByZero (Digit K7)) = "7" /\
  display (step operatorOnError Equals) = "NaN".
Proof.
  split.
  - destruct (Error_exits afterDivisionByZero) as [H _].
    + apply reachable_run. constructor.
    + reflexivity.
    + apply (H K7).
  - destruct (Error_exits operatorOnError) as (_ & _ & _ & _ & H).
    + apply reachable_run. constructor.
    + reflexivity.
    + apply (H ltac:(discriminate) KAdd).
Defined.

(** ** The form of the display *)


(** ** An operator key on [Error] *)



(** ** More on the handlers *)

Section HandlerFacts.

Lemma run_app (acts1 acts2 : list Action) (st : CalculatorState) :
  run (acts1 ++ acts2)%list st = run acts2 (run acts1 st).
Proof. apply fold_left_app. Qed.

Lemma performCalculation_noop (st : CalculatorState) :
  previousValue st = None -> performCalculation st = st.
Proof. intros P. unfold performCalculation. now rewrite P. Qed.

(** Equals leaves the state as it is, or leaves no pending operand. *)
Lemma performCalculation_cases (st : CalculatorState) :
  performCalculation st = st \/
  (previousValue (performCalculation st) = None /\
   operation (performCalculation st) = None).
Proof.
  unfold performCalculation.
  destruct (previousValue st) as [p|]; [|now left].
  destruct (operation st) as [op|]; [|now left].
  destruct (JSString.to_boolean op); [|now left].
  right. destruct (is_Error _); split; reflexivity.
Qed.

Lemma inputOperation_waits (next : string) (st : CalculatorState) :
  waitingForNewValue (inputOperation next st) = true.
Proof.
  unfold inputOperation.
  destruct (previousValue st) as [p|]; [|reflexivity].
  destruct (operation st) as [op|]; [|reflexivity].
  destruct (JSString.to_boolean op); [|reflexivity].
  destruct (is_Error _); reflexivity.
Qed.

Lemma drop_last_append_char (s : string) (c : ascii) :
  drop_last (s ++ String c "") = s.
Proof.
  induction s as [|a s IH]; [reflexivity|].
  change (drop_last (String a (s ++ String c "")) = String a s).
  destruct (s ++ String c "") as [|b t] eqn:E.
  - destruct s; discriminate.
  - change (String a (drop_last (String b t)) = String a s). now rewrite IH.
Qed.

Lemma to_string_no_E (x : number) : starts_with_E (to_string x) = false.
Proof.
  pose proof (to_string_not_E x) as H.
  destruct (to_string x) as [|c t]; [reflexivity|]. simpl.
  destruct (Ascii.eqb_spec c "E") as [->|_]; [|reflexivity].
  now elim (H t).
Qed.

Lemma prefix_drop_last (s t : string) :
  prefix s t = true -> prefix (drop_last s) t = true.
Proof.
  revert t. induction s as [|a s IH]; intros t H; [exact H|].
  destruct s as [|b s]; [now destruct t|].
  change (drop_last (String a (String b s)))
    with (String a (drop_last (String b s))).
  destruct t as [|c t]; [discriminate|].
  simpl in H |- *. destruct (ascii_dec a c); [|discriminate].
  now apply IH.
Qed.

Lemma prefix_length (s t : string) :
  prefix s t = true -> (String.length s <= String.length t)%nat.
Proof.
  revert t. induction s as [|a s IH]; intros t H; simpl; [lia|].
  destruct t as [|c t]; [discriminate|].
  simpl in H. destruct (ascii_dec a c); [|discriminate].
  apply IH in H. simpl. lia.
Qed.

(** A display that starts with [E] is what is left of [Error]. *)
Lemma reachable_E_prefix (st : CalculatorState) :
  reachable st ->
  starts_with_E (display st) = true -> prefix (display st) "Error" = true.
Proof.
  induction 1 as [|st a R IH]; [discriminate|].
  pose proof (reachable_invariant st R) as [Hd _ Hw _ _].
  destruct a; unfold step.
  - unfold inputNumber.
    destruct (waitingForNewValue st) eqn:W; cbn [display].
    + destruct d; discriminate.
    + destruct (display st =? "0")%string; [destruct d; discriminate|].
      rewrite starts_with_E_append by assumption.
      intros E. apply Hw in E. congruence.
  - unfold inputOperation.
    destruct (previousValue st) as [p|]; [|exact IH].
    destruct (operation st) as [op|]; [|exact IH].
    destruct (JSString.to_boolean op); [|exact IH].
    destruct (calculate_result (or_else p zero) (parseFloat (display st)) op)
      as [E|[x E]]; rewrite E; cbn [is_Error String_ display];
      [reflexivity|].
    now rewrite to_string_no_E.
  - unfold performCalculation.
    destruct (previousValue st) as [p|]; [|exact IH].
    destruct (operation st) as [op|]; [|exact IH].
    destruct (JSString.to_boolean op); [|exact IH].
    destruct (calculate_result p (parseFloat (display st)) op)
      as [E|[x E]]; rewrite E; cbn [is_Error String_ display];
      [reflexivity|].
    now rewrite to_string_no_E.
  - discriminate.
  - unfold backspace. cbn [display].
    destruct (Nat.ltb_spec 1 (String.length (display st))) as [L|L];
      [|discriminate].
    rewrite slice_drop_last, starts_with_E_drop_last by assumption.
    intros E. now apply prefix_drop_last, IH.
Qed.

(** Digits typed on a display that is the lone [0]. *)
Lemma digits_from_zero (ds : list DigitKey) (st : CalculatorState) :
  waitingForNewValue st = false -> display st = "0" ->
  display (run (map Digit ds) st) = entered_text ds.
Proof.
  revert st. induction ds as [|d ds IH]; intros st W Z; [exact Z|].
  assert (Hstep : step st (Digit d) =
                  {| display := digit_text d;
                     previousValue := previousValue st;
                     operation := operation st;
                     waitingForNewValue := false |}).
  { simpl. unfold inputNumber. now rewrite W, Z. }
  simpl run. change (fold_left step (map Digit ds) ?x) with (run (map Digit ds) x).
  change (inputNumber (digit_text d) st) with (step st (Digit d)).
  rewrite Hstep.
  destruct d;
    try (rewrite digits_appended;
         [reflexivity | reflexivity | discriminate | discriminate]).
  now apply IH.
Qed.

(** Digit keys change the display only, and end the wait. *)
Lemma digits_frame (ds : list DigitKey) (st : CalculatorState) :
  previousValue (run (map Digit ds) st) = previousValue st /\
  operation (run (map Digit ds) st) = operation st /\
  (ds <> [] -> waitingForNewValue (run (map Digit ds) st) = false).
Proof.
  revert st. induction ds as [|d ds IH]; intros st.
  - repeat split. congruence.
  - simpl run.
    change (fold_left step (map Digit ds) ?x) with (run (map Digit ds) x).
    destruct (IH (inputNumber (digit_text d) st)) as (P & O & W).
    rewrite P, O. repeat split.
    + unfold inputNumber. now destruct (waitingForNewValue st).
    + unfold inputNumber. now destruct (waitingForNewValue st).
    + intros _. destruct ds as [|d' ds]; [|apply W; discriminate].
      simpl. unfold inputNumber. now destruct (waitingForNewValue st) eqn:E.
Qed.

(** Digits typed while the component waits for a new value make a fresh
    number. *)
Lemma digits_fresh (ds : list DigitKey) (st : CalculatorState) :
  waitingForNewValue st = true -> ds <> [] ->
  run (map Digit ds) st =
    {| display := entered_text ds;
       previousValue := previousValue st;
       operation := operation st;
       waitingForNewValue := false |}.
Proof.
  intros W Hne.
  destruct (digits_frame ds st) as (P & O & Wf).
  specialize (Wf Hne).
  assert (D : display (run (map Digit ds) st) = entered_text ds).
  { destruct ds as [|d ds]; [congruence|].
    simpl run.
    change (fold_left step (map Digit ds) ?x) with (run (map Digit ds) x).
    assert (Hstep : inputNumber (digit_text d) st =
                    {| display := digit_text d;
                       previousValue := previousValue st;
                       operation := operation st;
                       waitingForNewValue := false |}).
    { unfold inputNumber. now rewrite W. }
    rewrite Hstep.
    destruct d;
      try (rewrite digits_appended;
           [reflexivity | reflexivity | discriminate | discriminate]).
    change (entered_text (K0 :: ds)) with (entered_text ds).
    now apply digits_from_zero. }
  destruct (run (map Digit ds) st) as [d p o w]. simpl in *. congruence.
Qed.

End HandlerFacts.

(** ** Equals, again *)

(** X1: equals pressed twice does what equals pressed once does: the second
    press finds no pending operand, or repeats a no-op. *)
Theorem equals_twice (st : CalculatorState) :
  performCalculation (performCalculation st) = performCalculation st.
Proof.
  destruct (performCalculation_cases st) as [H|[P _]].
  - now rewrite !H.
  - now apply performCalculation_noop.
Qed.

(** X2: in a reachable state, equals leaves no pending operand and no
    pending operator. *)
Theorem equals_leaves_nothing_pending (st : CalculatorState) :
  reachable st ->
  previousValue (step st Equals) = None /\ operation (step st Equals) = None.
Proof.
  intros R. simpl. unfold performCalculation.
  destruct (previousValue st) as [p|] eqn:P.
  - destruct (reachable_pending st p R P) as [o O].
    rewrite O, operator_text_truthy.
    destruct (is_Error _); split; reflexivity.
  - apply reachable_invariant in R as [_ _ _ Hp _].
    split; [exact P | now apply Hp].
Qed.

Lemma equals_leaves_nothing_pending_witness :
  previousValue (step twoPlusThree Equals) = None /\
  operation (step twoPlusThree Equals) = None.
Proof.
  apply (equals_leaves_nothing_pending twoPlusThree).
  apply reachable_run. constructor.
Defined.

(** ** Backspace, again *)

(** X3: in a state that does not wait for a new value and whose display is
    not empty, backspace after a digit key gives the state back. *)
Theorem backspace_undoes_digit (d : DigitKey) (st : CalculatorState) :
  waitingForNewValue st = false -> display st <> "" ->
  backspace (inputNumber (digit_text d) st) = st.
Proof.
  destruct st as [disp p o w]. simpl. intros -> Hne.
  unfold inputNumber, backspace. simpl.
  destruct (String.eqb_spec disp "0") as [->|H0].
  - now destruct d.
  - destruct (digit_text_shape d) as (c & -> & _).
    assert (L : (1 <? String.length (disp ++ String c ""))%nat = true).
    { apply Nat.ltb_lt. rewrite length_append. simpl.
      destruct disp; [congruence | simpl; lia]. }
    now rewrite L, slice_drop_last, drop_last_append_char.
Qed.

Lemma backspace_undoes_digit_witness :
  backspace (inputNumber "7" (mkState "12." None None false)) =
  mkState "12." None None false.
Proof.
  apply (backspace_undoes_digit K7 (mkState "12." None None false)).
  - reflexivity.
  - discriminate.
Defined.

(** X4: backspace pressed at least once, and at least as many times as the
    display has characters, ends with the display [0] and changes nothing
    else. *)
Theorem backspace_to_zero (n : nat) (st : CalculatorState) :
  (String.length (display st) <= n)%nat -> (1 <= n)%nat ->
  run (repeat Backspace n) st =
    {| display := "0";
       previousValue := previousValue st;
       operation := operation st;
       waitingForNewValue := waitingForNewValue st |}.
Proof.
  revert st. induction n as [|n IH]; intros st L N; [lia|].
  change (run (repeat Backspace (S n)) st)
    with (run (repeat Backspace n) (backspace st)).
  destruct n as [|n].
  - simpl. unfold backspace.
    destruct (Nat.ltb_spec 1 (String.length (display st))); [lia|].
    reflexivity.
  - rewrite IH; [reflexivity| |lia].
    unfold backspace. cbn [display].
    destruct (Nat.ltb_spec 1 (String.length (display st))).
    + rewrite slice_drop_last, drop_last_length. lia.
    + simpl. lia.
Qed.

Lemma backspace_to_zero_witness :
  run (repeat Backspace 5) afterDivisionByZero =
    {| display := "0"; previousValue := None; operation := None;
       waitingForNewValue := true |}.
Proof.
  apply (backspace_to_zero 5 afterDivisionByZero); vm_compute; lia.
Defined.

(** ** Sequences of keys *)

(** X5: after an operator key, a non-empty sequence of digit keys replaces
    the display by the number they enter, and keeps the pending operand
    and operator that the operator key left. *)
Theorem digits_after_operator
  (st : CalculatorState) (o : OperatorKey) (ds : list DigitKey) :
  ds <> [] ->
  run (Operator o :: map Digit ds) st =
    {| display := entered_text ds;
       previousValue := previousValue (step st (Operator o));
       operation := operation (step st (Operator o));
       waitingForNewValue := false |}.
Proof.
  intros Hne.
  change (run (Operator o :: map Digit ds) st)
    with (run (map Digit ds) (step st (Operator o))).
  apply digits_fresh; [apply inputOperation_waits | exact Hne].
Qed.

Lemma digits_after_operator_witness :
  run (Operator KAdd :: map Digit [K0; K4; K2]) twoPlusThree =
    {| display := "42";
       previousValue := previousValue (step twoPlusThree (Operator KAdd));
       operation := Some "+"%string;
       waitingForNewValue := false |}.
Proof.
  apply (digits_after_operator twoPlusThree KAdd [K0; K4; K2]).
  discriminate.
Defined.

(** X6: with no operand pending, an operator key, a non-empty sequence of
    digit keys and equals show [calculate] on the parsed display, the
    parsed number entered and the operator, and leave nothing pending; a
    division by zero gives the error state. *)
Theorem binary_operation
  (st : CalculatorState) (o : OperatorKey) (ds : list DigitKey) :
  previousValue st = None -> ds <> [] ->
  run (Operator o :: map Digit ds ++ [Equals])%list st =
    let v := calculate (parseFloat (display st))
                       (parseFloat (entered_text ds)) (operator_text o) in
    if is_Error v then errorState
    else {| display := String_ v;
            previousValue := None;
            operation := None;
            waitingForNewValue := true |}.
Proof.
  intros P Hne.
  change (run (Operator o :: map Digit ds ++ [Equals])%list st)
    with (run (map Digit ds ++ [Equals])%list (step st (Operator o))).
  rewrite run_app, digits_fresh;
    [|apply inputOperation_waits | exact Hne].
  simpl. unfold inputOperation, performCalculation. rewrite P. simpl.
  now rewrite operator_text_truthy.
Qed.

Lemma binary_operation_witness :
  run (Operator KSubtract :: map Digit [K1; K0] ++ [Equals])%list
      (mkState "2.5" None None false) =
    {| display := "-7.5"; previousValue := None; operation := None;
       waitingForNewValue := true |}.
Proof.
  apply (binary_operation (mkState "2.5" None None false) KSubtract [K1; K0]).
  - reflexivity.
  - discriminate.
Defined.

(** X7: with no operand pending, the keys [o1], digits, [o2], digits,
    equals compute from left to right: the first result, taken with a
    first operand that is [0] when the display parsed to [NaN] or a zero,
    is the first operand of the second operation.  When the first
    operation divides by zero, the second number entered is shown and
    nothing is pending. *)
Theorem chained_operation
  (st : CalculatorState) (o1 o2 : OperatorKey) (ds1 ds2 : list DigitKey) :
  previousValue st = None -> ds1 <> [] -> ds2 <> [] ->
  run (Operator o1 :: map Digit ds1 ++
       Operator o2 :: map Digit ds2 ++ [Equals])%list st =
    match calculate (or_else (parseFloat (display st)) zero)
                    (parseFloat (entered_text ds1)) (operator_text o1) with
    | Num r =>
        let v := calculate r (parseFloat (entered_text ds2))
                           (operator_text o2) in
        if is_Error v then errorState
        else {| display := String_ v;
                previousValue := None;
                operation := None;
                waitingForNewValue := true |}
    | Str _ =>
        {| display := entered_text ds2;
           previousValue := None;
           operation := None;
           waitingForNewValue := false |}
    end.
Proof.
  intros P H1 H2.
  assert (S1 : step st (Operator o1) =
               {| display := display st;
                  previousValue := Some (parseFloat (display st));
                  operation := Some (operator_text o1);
                  waitingForNewValue := true |}).
  { simpl. unfold inputOperation. now rewrite P. }
  change (run (Operator o1 :: map Digit ds1 ++
               Operator o2 :: map Digit ds2 ++ [Equals])%list st)
    with (run (map Digit ds1 ++
               Operator o2 :: map Digit ds2 ++ [Equals])%list
              (step st (Operator o1))).
  rewrite S1, run_app, digits_fresh; [|reflexivity | exact H1].
  cbn [display previousValue operation].
  change (run (Operator o2 :: map Digit ds2 ++ [Equals])%list ?x)
    with (run (map Digit ds2 ++ [Equals])%list (step x (Operator o2))).
  rewrite run_app, digits_fresh; [|apply inputOperation_waits | exact H2].
  cbn [step]. unfold inputOperation.
  cbn [display previousValue operation]. rewrite operator_text_truthy.
  destruct (calculate_result (or_else (parseFloat (display st)) zero)
              (parseFloat (entered_text ds1)) (operator_text o1))
    as [E|[r E]]; rewrite E; simpl.
  - reflexivity.
  - unfold performCalculation. simpl. now rewrite operator_text_truthy.
Qed.

Lemma chained_operation_witness :
  run (Operator KAdd :: map Digit [K3] ++
       Operator KMultiply :: map Digit [K4] ++ [Equals])%list
      (mkState "2" None None false) =
    {| display := "20"; previousValue := None; operation := None;
       waitingForNewValue := true |}.
Proof.
  apply (chained_operation (mkState "2" None None false)
           KAdd KMultiply [K3] [K4]).
  - reflexivity.
  - discriminate.
  - discriminate.
Defined.

(** X8: with no operand pending, a second operator key pressed right after
    a first one does not replace it: the first operation is applied with
    the parsed display as both operands (the first one replaced by [0] when
    it is [NaN] or a zero). *)
Theorem operator_twice (st : CalculatorState) (o1 o2 : OperatorKey) :
  previousValue st = None ->
  run [Operator o1; Operator o2] st =
    let a := parseFloat (display st) in
    match calculate (or_else a zero) a (operator_text o1) with
    | Num r =>
        {| display := to_string r;
           previousValue := Some r;
           operation := Some (operator_text o2);
           waitingForNewValue := true |}
    | Str _ => errorState
    end.
Proof.
  intros P. simpl. unfold inputOperation at 2. rewrite P.
  unfold inputOperation. simpl. rewrite operator_text_truthy.
  destruct (calculate_result (or_else (parseFloat (display st)) zero)
              (parseFloat (display st)) (operator_text o1))
    as [E|[r E]]; rewrite E; reflexivity.
Qed.

Lemma operator_twice_witness :
  run [Operator KAdd; Operator KMultiply] (mkState "5" None None false) =
    {| display := "10";
       previousValue := Some (parseFloat "10");
       operation := Some "*"%string;
       waitingForNewValue := true |}.
Proof.
  apply (operator_twice (mkState "5" None None false) KAdd KMultiply).
  reflexivity.
Defined.

(** ** Where [Error] comes from *)

(** X9: from a reachable state that does not show [Error], an action that
    makes the display [Error] is an operator key or equals, taken while
    the pending operator is ['/'] and the display parses to a zero. *)
Theorem Error_only_by_division_by_zero (st : CalculatorState) (a : Action) :
  reachable st -> display st <> "Error" -> display (step st a) = "Error" ->
  (a = Equals \/ exists o, a = Operator o) /\
  (exists p, previousValue st = Some p) /\
  operation st = Some "/"%string /\
  strict_eq (parseFloat (display st)) zero = true.
Proof.
  intros R Hne.
  pose proof (reachable_invariant st R) as [Hd _ Hw _ _].
  destruct a; unfold step.
  - unfold inputNumber.
    destruct (waitingForNewValue st) eqn:W; cbn [display].
    + destruct d; discriminate.
    + destruct (display st =? "0")%string; [destruct d; discriminate|].
      intros E. apply (f_equal starts_with_E) in E.
      rewrite starts_with_E_append in E by assumption.
      apply Hw in E. congruence.
  - unfold inputOperation.
    destruct (previousValue st) as [p|] eqn:P; [|intros E; contradiction].
    destruct (reachable_pending st p R P) as [o' O].
    rewrite O, operator_text_truthy.
    destruct (is_Error _) eqn:E.
    + apply calculate_is_Error in E as [Eop Ez]. intros _.
      rewrite Eop.
      split; [right; now exists o|]. split; [now exists p|]. now split.
    + destruct (calculate_result (or_else p zero)
                  (parseFloat (display st)) (operator_text o'))
        as [E'|[x E']]; rewrite E' in *; [discriminate|].
      cbn [String_ display]. intros H. now apply to_string_not_E in H.
  - unfold performCalculation.
    destruct (previousValue st) as [p|] eqn:P; [|intros E; contradiction].
    destruct (reachable_pending st p R P) as [o' O].
    rewrite O, operator_text_truthy.
    destruct (is_Error _) eqn:E.
    + apply calculate_is_Error in E as [Eop Ez]. intros _.
      rewrite Eop.
      split; [now left|]. split; [now exists p|]. now split.
    + destruct (calculate_result p
                  (parseFloat (display st)) (operator_text o'))
        as [E'|[x E']]; rewrite E' in *; [discriminate|].
      cbn [String_ display]. intros H. now apply to_string_not_E in H.
  - discriminate.
  - unfold backspace. cbn [display].
    destruct (Nat.ltb_spec 1 (String.length (display st))) as [L|L];
      [|discriminate].
    rewrite slice_drop_last. intros E.
    assert (HE : starts_with_E (display st) = true).
    { rewrite <- starts_with_E_drop_last by assumption. now rewrite E. }
    apply (reachable_E_prefix st R), prefix_length in HE.
    pose proof (drop_last_length (display st)) as Hl.
    rewrite E in Hl. simpl in Hl, HE. lia.
Qed.

Lemma Error_only_by_division_by_zero_witness :
  operation sixDividedByZero = Some "/"%string /\
  strict_eq (parseFloat (display sixDividedByZero)) zero = true.
Proof.
  destruct (Error_only_by_division_by_zero sixDividedByZero Equals)
    as (_ & _ & H).
  - apply reachable_run. constructor.
  - discriminate.
  - reflexivity.
  - exact H.
Defined.

(** X10: in a reachable state an operand is pending exactly when an
    operator is, and a pending operator is one of [+], [-], [*], [/]: the
    default branch of [calculate] is never taken. *)
Theorem reachable_pending_operator (st : CalculatorState) :
  reachable st ->
  (previousValue st = None <-> operation st = None) /\
  (forall op, operation st = Some op ->
     op = "+" \/ op = "-" \/ op = "*" \/ op = "/").
Proof.
  intros R. apply reachable_invariant in R as [_ _ _ Hp Ho].
  split; [exact Hp|].
  intros op O. destruct (Ho op O) as [o ->]. destruct o; simpl; auto.
Qed.

Lemma reachable_pending_operator_witness :
  (previousValue twoPlusThree = None <-> operation twoPlusThree = None) /\
  (forall op, operation twoPlusThree = Some op ->
     op = "+" \/ op = "-" \/ op = "*" \/ op = "/").
Proof.
  apply (reachable_pending_operator twoPlusThree).
  apply reachable_run. constructor.
Defined.

(** ** The keyboard *)

Section KeyboardFacts.

Import Keyboard.

Ltac each_ascii c :=
  destruct c as [[|] [|] [|] [|] [|] [|] [|] [|]].

(** A key of one character lies between ['0'] and ['9'] exactly when it is
    a decimal digit. *)
Lemma digit_range_single (c : ascii) :
  String.leb "0" (String c "") && String.leb (String c "") "9" = is_digit c.
Proof. each_ascii c; reflexivity. Qed.

(** A key whose first character is not a decimal digit lies outside. *)
Lemma digit_range_head (c : ascii) (rest : string) :
  is_digit c = false ->
  String.leb "0" (String c rest) && String.leb (String c rest) "9" = false.
Proof. each_ascii c; intros H; try discriminate H; reflexivity. Qed.

Lemma digit_key_of_char (c : ascii) :
  is_digit c = true ->
  exists k, k <> KDot /\ digit_text k = String c "".
Proof.
  each_ascii c; intros H; try discriminate H;
    first [ exists K0; split; [discriminate | reflexivity]
          | exists K1; split; [discriminate | reflexivity]
          | exists K2; split; [discriminate | reflexivity]
          | exists K3; split; [discriminate | reflexivity]
          | exists K4; split; [discriminate | reflexivity]
          | exists K5; split; [discriminate | reflexivity]
          | exists K6; split; [discriminate | reflexivity]
          | exists K7; split; [discriminate | reflexivity]
          | exists K8; split; [discriminate | reflexivity]
          | exists K9; split; [discriminate | reflexivity] ].
Qed.

Lemma digit_range_key (key : string) :
  String.length key = 1%nat \/ head_digit key = false ->
  String.leb "0" key && String.leb key "9" = true ->
  exists k, k <> KDot /\ digit_text k = key.
Proof.
  intros [L|H] R.
  - destruct key as [|c [|c' rest]]; try discriminate L.
    rewrite digit_range_single in R. now apply digit_key_of_char.
  - destruct key as [|c rest]; [discriminate R|].
    simpl in H. rewrite (digit_range_head c rest H) in R. discriminate.
Qed.

Lemma includes_operators (key : string) :
  includes ["+"; "-"; "*"; "/"] key = true ->
  exists o, operator_text o = key.
Proof.
  unfold includes. simpl.
  destruct (String.eqb_spec key "+") as [->|_]; [now exists KAdd|].
  destruct (String.eqb_spec key "-") as [->|_]; [now exists KSubtract|].
  destruct (String.eqb_spec key "*") as [->|_]; [now exists KMultiply|].
  destruct (String.eqb_spec key "/") as [->|_]; [now exists KDivide|].
  discriminate.
Qed.

End KeyboardFacts.

(** X11: a key that is one character long, or does not start with a decimal
    digit, either is ignored or does what one of the buttons does, and
    never what the decimal point button does; so it leads from a reachable
    state to a reachable state. *)
Theorem key_fires_an_action (key : string) (st : CalculatorState) :
  String.length key = 1%nat \/ head_digit key = false ->
  (exists oa : option Action,
     oa <> Some (Digit KDot) /\
     fst (Keyboard.handleKeyPress key st) =
       match oa with
       | Some a => step st a
       | None => st
       end) /\
  (reachable st -> reachable (fst (Keyboard.handleKeyPress key st))).
Proof.
  intros Hkey.
  assert (Hex : exists oa : option Action,
             oa <> Some (Digit KDot) /\
             fst (Keyboard.handleKeyPress key st) =
               match oa with
               | Some a => step st a
               | None => st
               end).
  { unfold Keyboard.handleKeyPress.
    destruct (String.leb "0" key && String.leb key "9") eqn:R.
    { destruct (digit_range_key key Hkey R) as (k & Hk & <-).
      exists (Some (Digit k)). split; [congruence | reflexivity]. }
    destruct (Keyboard.includes _ key) eqn:I.
    { destruct (includes_operators key I) as [o <-].
      exists (Some (Operator o)). split; [discriminate | reflexivity]. }
    destruct ((key =? "Enter")%string || (key =? "=")%string).
    { exists (Some Equals). split; [discriminate | reflexivity]. }
    destruct (key =? "Backspace")%string.
    { exists (Some Backspace). split; [discriminate | reflexivity]. }
    destruct (key =? "Escape")%string.
    { exists (Some Clear). split; [discriminate | reflexivity]. }
    exists None. split; [discriminate | reflexivity]. }
  split; [exact Hex|].
  intros Rst. destruct Hex as ([a|] & _ & ->); [now constructor | exact Rst].
Qed.

Lemma key_fires_an_action_witness :
  reachable (fst (Keyboard.handleKeyPress "." twoPlusThree)) /\
  reachable (fst (Keyboard.handleKeyPress "Enter" twoPlusThree)).
Proof.
  split.
  - apply (key_fires_an_action "." twoPlusThree).
    + left. reflexivity.
    + apply reachable_run. constructor.
  - apply (key_fires_an_action "Enter" twoPlusThree).
    + right. reflexivity.
    + apply reachable_run. constructor.
Defined.

(** X12: every action but the decimal point has a key: the listener does
    with that key what the button does. *)
Theorem every_action_but_dot_has_a_key (a : Action) :
  a <> Digit KDot ->
  exists key, forall st, fst (Keyboard.handleKeyPress key st) = step st a.
Proof.
  intros Ha. destruct a as [d|o| | |].
  - destruct d; try congruence;
      match goal with
      | |- exists key, forall st, _ = step st (Digit ?k) =>
          exists (digit_text k); intros st; reflexivity
      end.
  - destruct o;
      match goal with
      | |- exists key, forall st, _ = step st (Operator ?k) =>
          exists (operator_text k); intros st; reflexivity
      end.
  - exists "Enter"%string. reflexivity.
  - exists "Escape"%string. reflexivity.
  - exists "Backspace"%string. reflexivity.
Qed.

Lemma every_action_but_dot_has_a_key_witness :
  exists key,
    forall st, fst (Keyboard.handleKeyPress key st) = step st (Operator KDivide).
Proof.
  apply (every_action_but_dot_has_a_key (Operator KDivide)). discriminate.
Defined.

(** ** The theme *)

Section ThemeFacts.

Import Theme.

Lemma existsb_eqb_In (token : string) (l : list string) :
  existsb (String.eqb token) l = true <-> In token l.
Proof.
  rewrite existsb_exists. split.
  - intros (x & Hx & E). apply String.eqb_eq in E. now subst.
  - intros H. exists token. split; [exact H | apply String.eqb_refl].
Qed.

(** What [classList.toggle(token, force)] leaves in the list. *)
Lemma In_classList_toggle (token t : string) (force : bool)
  (l : list string) :
  In t (classList_toggle token force l) <->
  (t = token /\ force = true) \/ (t <> token /\ In t l).
Proof.
  unfold classList_toggle. destruct force.
  - destruct (existsb (String.eqb token) l) eqn:E.
    + apply existsb_eqb_In in E.
      destruct (string_dec t token) as [->|Hne]; intuition congruence.
    + rewrite in_app_iff. simpl.
      destruct (string_dec t token) as [->|Hne]; intuition congruence.
  - rewrite filter_In, negb_true_iff, String.eqb_neq.
    intuition congruence.
Qed.

Lemma NoDup_classList_toggle (token : string) (force : bool)
  (l : list string) :
  NoDup l -> NoDup (classList_toggle token force l).
Proof.
  intros H. unfold classList_toggle. destruct force.
  - destruct (existsb (String.eqb token) l) eqn:E; [exact H|].
    apply NoDup_app; [exact H | repeat constructor; intros [] |].
    intros a Ha [<-|[]].
    apply existsb_eqb_In in Ha. congruence.
  - now apply NoDup_filter.
Qed.

Lemma toggleDarkMode_in_sync (th : ThemeState) : in_sync (toggleDarkMode th).
Proof.
  unfold in_sync, toggleDarkMode. simpl.
  rewrite In_classList_toggle. intuition congruence.
Qed.

Lemma initializeDarkMode_in_sync (prefersDark : bool) (th : ThemeState) :
  in_sync (initializeDarkMode prefersDark th).
Proof.
  unfold in_sync, initializeDarkMode. simpl.
  rewrite In_classList_toggle. intuition congruence.
Qed.

End ThemeFacts.

(** X13: after the effect run at mount and any number [n] of toggles, the
    document has the class [dark] exactly when [isDarkMode] is true, and
    [isDarkMode] is the preference found at mount, negated when [n] is
    odd. *)
Theorem theme_in_sync
  (prefersDark : bool) (th : Theme.ThemeState) (n : nat) :
  Theme.in_sync
    (Nat.iter n Theme.toggleDarkMode (Theme.initializeDarkMode prefersDark th))
  /\
  Theme.isDarkMode
    (Nat.iter n Theme.toggleDarkMode (Theme.initializeDarkMode prefersDark th))
  = xorb prefersDark (Nat.odd n).
Proof.
  split.
  - destruct n as [|n]; simpl.
    + apply initializeDarkMode_in_sync.
    + apply toggleDarkMode_in_sync.
  - induction n as [|n IH].
    + simpl. now destruct prefersDark.
    + change (Nat.iter (S n) Theme.toggleDarkMode ?x)
        with (Theme.toggleDarkMode (Nat.iter n Theme.toggleDarkMode x)).
      unfold Theme.toggleDarkMode at 1. cbn [Theme.isDarkMode].
      rewrite IH, Nat.odd_succ, <- Nat.negb_odd.
      now destruct prefersDark, (Nat.odd n).
Qed.

(** X14: the effect run at mount and the toggles leave every class other
    than [dark] as it was, and never make a class appear twice. *)
Theorem theme_keeps_other_classes
  (prefersDark : bool) (th : Theme.ThemeState) (n : nat) :
  (forall t, t <> "dark" ->
     (In t (Theme.classList
              (Nat.iter n Theme.toggleDarkMode
                 (Theme.initializeDarkMode prefersDark th)))
      <-> In t (Theme.classList th))) /\
  (NoDup (Theme.classList th) ->
   NoDup (Theme.classList
            (Nat.iter n Theme.toggleDarkMode
               (Theme.initializeDarkMode prefersDark th)))).
Proof.
  induction n as [|n [IHin IHnd]].
  - split.
    + intros t Ht. simpl. rewrite In_classList_toggle. intuition congruence.
    + intros H. simpl. now apply NoDup_classList_toggle.
  - change (Nat.iter (S n) Theme.toggleDarkMode ?x)
      with (Theme.toggleDarkMode (Nat.iter n Theme.toggleDarkMode x)).
    split.
    + intros t Ht. unfold Theme.toggleDarkMode at 1. cbn [Theme.classList].
      rewrite In_classList_toggle, <- (IHin t Ht). intuition congruence.
    + intros H. unfold Theme.toggleDarkMode at 1. cbn [Theme.classList].
      now apply NoDup_classList_toggle, IHnd.
Qed.

Lemma theme_keeps_other_classes_witness :
  In "loaded"%string
     (Theme.classList
        (Nat.iter 3 Theme.toggleDarkMode
           (Theme.initializeDarkMode true
              (Theme.mkTheme false ["loaded"; "dark"]%string)))) /\
  NoDup (Theme.classList
           (Nat.iter 3 Theme.toggleDarkMode
              (Theme.initializeDarkMode true
                 (Theme.mkTheme false ["loaded"; "dark"]%string)))).
Proof.
  destruct (theme_keeps_other_classes true
              (Theme.mkTheme false ["loaded"; "dark"]%string) 3) as [Hin Hnd].
  split.
  - apply (Hin "loaded"%string); [discriminate | left; reflexivity].
  - apply Hnd. repeat constructor; simpl; intuition discriminate.
Defined.

(** ** Left-to-right evaluation *)

Section ChainFacts.

(** The keys of a chain, pressed while [acc] is pending with [o] and the
    component waits for the digits [ds]. *)
Lemma chain_run (rest : list (OperatorKey * list DigitKey)) :
  forall (acc : number) (o : OperatorKey) (ds : list DigitKey)
         (st : CalculatorState) (r : number),
    previousValue st = Some acc ->
    operation st = Some (operator_text o) ->
    waitingForNewValue st = true ->
    ds <> [] -> Forall (fun link => snd link <> []) rest ->
    chain_value acc o ds rest = Num r ->
    run (map Digit ds ++ chain_keys rest ++ [Equals])%list st =
      {| display := to_string r;
         previousValue := None;
         operation := None;
         waitingForNewValue := true |}.
Proof.
  induction rest as [|[o' ds'] rest IH]; intros acc o ds st r P O W Hds Hall V.
  - rewrite run_app, digits_fresh by assumption.
    simpl. unfold performCalculation. simpl. rewrite P, O.
    simpl in V. rewrite operator_text_truthy, V. reflexivity.
  - rewrite run_app, digits_fresh by assumption.
    inversion Hall as [|link rest' Hds' Hall']; subst. simpl in Hds'.
    cbn [chain_keys]. rewrite <- app_comm_cons, <- app_assoc.
    change (run (Operator o' :: ?l) ?x) with (run l (step x (Operator o'))).
    simpl in V.
    destruct (calculate (or_else acc zero) (parseFloat (entered_text ds))
                        (operator_text o)) as [r1|s] eqn:E;
      [|discriminate V].
    apply (IH r1 o' ds'); try assumption.
    + simpl. unfold inputOperation. simpl.
      now rewrite P, O, operator_text_truthy, E.
    + simpl. unfold inputOperation. simpl.
      now rewrite P, O, operator_text_truthy, E.
    + apply inputOperation_waits.
Qed.

Lemma digits_from_initial (ds : list DigitKey) :
  run (map Digit ds) initialState =
    {| display := entered_text ds;
       previousValue := None;
       operation := None;
       waitingForNewValue := false |}.
Proof.
  destruct (digits_frame ds initialState) as (P & O & _).
  pose proof (digits_from_zero ds initialState eq_refl eq_refl) as D.
  assert (W : waitingForNewValue (run (map Digit ds) initialState) = false).
  { clear. induction ds as [|d ds IH]; [reflexivity|].
    destruct d; try exact IH;
      exact (proj2 (proj2 (digits_frame (_ :: ds) initialState))
                   ltac:(discriminate)). }
  destruct (run (map Digit ds) initialState) as [d p o w].
  simpl in *. congruence.
Qed.

End ChainFacts.

(** C2: chained operations are evaluated from left to right, whatever the
    operators are.  From a state with no pending operand, and so from the
    initial state after any digits, the keys of a chain (each operator key
    followed by a non-empty sequence of digit keys) and then equals show
    the text of the value of the chain taken from left to right, when no
    operation of the chain divides by zero.  The keys [2], [+], [3], [*],
    [4], [=] leave the display [20], which is [(2 + 3) * 4], and not
    [14]. *)
Theorem chained_operators_left_to_right :
  (forall st o ds rest r,
     previousValue st = None ->
     ds <> [] -> Forall (fun link => snd link <> []) rest ->
     chain_value (parseFloat (display st)) o ds rest = Num r ->
     run (chain_keys ((o, ds) :: rest) ++ [Equals])%list st =
       {| display := to_string r;
          previousValue := None;
          operation := None;
          waitingForNewValue := true |}) /\
  (forall ds0 o ds rest r,
     ds <> [] -> Forall (fun link => snd link <> []) rest ->
     chain_value (parseFloat (entered_text ds0)) o ds rest = Num r ->
     display (run (map Digit ds0 ++ chain_keys ((o, ds) :: rest) ++ [Equals])%list
                  initialState) = to_string r) /\
  display (run [Digit K2; Operator KAdd; Digit K3; Operator KMultiply;
                Digit K4; Equals] initialState) = "20" /\
  display (run [Digit K2; Operator KAdd; Digit K3; Operator KMultiply;
                Digit K4; Equals] initialState) <> "14".
Proof.
  assert (G : forall st o ds rest r,
             previousValue st = None ->
             ds <> [] -> Forall (fun link => snd link <> []) rest ->
             chain_value (parseFloat (display st)) o ds rest = Num r ->
             run (chain_keys ((o, ds) :: rest) ++ [Equals])%list st =
               {| display := to_string r;
                  previousValue := None;
                  operation := None;
                  waitingForNewValue := true |}).
  { intros st o ds rest r P Hds Hall V.
    cbn [chain_keys]. rewrite <- app_comm_cons, <- app_assoc.
    change (run (Operator o :: ?l) st) with (run l (step st (Operator o))).
    apply (chain_run rest (parseFloat (display st)) o); try assumption.
    - simpl. unfold inputOperation. now rewrite P.
    - simpl. unfold inputOperation. now rewrite P.
    - apply inputOperation_waits. }
  split; [exact G|]. split.
  - intros ds0 o ds rest r Hds Hall V.
    rewrite run_app, digits_from_initial.
    rewrite (G _ o ds rest r); try assumption; reflexivity.
  - split; [vm_compute; reflexivity | vm_compute; discriminate].
Qed.

Lemma chained_operators_left_to_right_witness :
  display (run (map Digit [K8] ++
                chain_keys [(KSubtract, [K2]); (KMultiply, [K3])] ++
                [Equals])%list initialState) = "18" /\
  display (run (map Digit [K9] ++
                chain_keys [(KSubtract, [K1]); (KSubtract, [K3]);
                            (KDivide, [K2; KDot; K5])] ++
                [Equals])%list initialState) = "2".
Proof.
  destruct chained_operators_left_to_right as (_ & H & _).
  split.
  - apply (H [K8] KSubtract [K2] [(KMultiply, [K3])] (parseFloat "18")).
    + discriminate.
    + repeat constructor; discriminate.
    + reflexivity.
  - apply (H [K9] KSubtract [K1]
             [(KSubtract, [K3]); (KDivide, [K2; KDot; K5])]
             (parseFloat "2")).
    + discriminate.
    + repeat constructor; discriminate.
    + reflexivity.
Defined.

(** ** The shape of the display *)

Section ShapeFacts.









End ShapeFacts.


